(** * JoinStep: query-plan steps for JOIN (src/Processors/QueryPlan/JoinStep.{h,cpp})

    A shallow embedding of [JoinStep], [FilledJoinStep], [SortForJoinStep]
    and the helper [getSortDescription].  Collaborators that live outside
    [JoinStep.cpp] (the join operator [IJoin], the pipeline builder, the
    generic [SortingStep]) are modelled from the spec where a claim needs
    them, or kept abstract as section variables. *)

From Stdlib Require Import String List Lia.
From stdpp Require Import base list gmap sets strings.
Import ListNotations.

(* ------------------------------------------------------------------ *)
(** ** Core data: names, headers, data streams, errors                *)

Definition Name := string.
Definition Names := list Name.

(** [NameSet] is an unordered set of names. *)
Abbreviation NameSet := (gset string).

(** A header column: name and type (the type is kept as its name). *)
Record ColumnWithTypeAndName := mkColumn {
  col_name : string;
  col_type : string
}.

(** A [Block] used as a header: the ordered list of columns. *)
Definition Block := list ColumnWithTypeAndName.

(** [DataStream]: the descriptor that flows between plan steps. *)
Record DataStream := mkDataStream { header : Block }.

(** Error codes thrown by this file; only [LOGICAL_ERROR] is used. *)
Inductive ErrorCode := LOGICAL_ERROR | STD_OUT_OF_RANGE.

Record Exception := mkException { code : ErrorCode; message : string }.

(** C++ code that may throw: either a value or the thrown exception. *)
Inductive Result (A : Type) :=
| Ok (a : A)
| Throw (e : Exception).
Arguments Ok {A} a.
Arguments Throw {A} e.

Definition bind {A B} (r : Result A) (k : A -> Result B) : Result B :=
  match r with
  | Ok a => k a
  | Throw e => Throw e
  end.

Notation "'let!' x := r 'in' k" := (bind r (fun x => k))
  (at level 200, x name, r at level 100, k at level 200).

(** [std::vector::at]: throws [std::out_of_range] past the end. *)
Definition vector_at {A} (v : list A) (i : nat) : Result A :=
  match v !! i with
  | Some x => Ok x
  | None => Throw (mkException STD_OUT_OF_RANGE "vector::_M_range_check")
  end.

(* ------------------------------------------------------------------ *)
(** ** Sort descriptions and [getSortDescription]                     *)

(** [SortColumnDescription(name)]: the other fields take their default
    values (ascending, nulls last). *)
Record SortColumnDescription := mkSortColumnDescription {
  column_name : string;
  direction : Z;
  nulls_direction : Z
}.

Definition SortColumnDescription_of (key_name : string) : SortColumnDescription :=
  mkSortColumnDescription key_name 1 1.

Definition SortDescription := list SortColumnDescription.

Definition SortDescription_empty (d : SortDescription) : bool :=
  match d with [] => true | _ :: _ => false end.

(** One iteration of the loop in [getSortDescription]:
    [used_keys.insert(key_name).second] is false exactly when the name is
    already in the set; the key is then skipped, otherwise it is inserted
    and appended to [sort_description]. *)
Definition getSortDescription_step
    (acc : SortDescription * NameSet) (key_name : string)
    : SortDescription * NameSet :=
  let '(sort_description, used_keys) := acc in
  if decide (key_name ∈ used_keys) then (sort_description, used_keys)
  else (sort_description ++ [SortColumnDescription_of key_name],
        {[key_name]} ∪ used_keys).

Definition getSortDescription (key_names : Names) : SortDescription :=
  fst (fold_left getSortDescription_step key_names ([], ∅)).

(** Spec-side reading of "duplicates removed, first occurrence kept":
    deduplicate the tail, drop the head's later copies, keep the head. *)
Fixpoint first_occurrences (l : list string) : list string :=
  match l with
  | [] => []
  | x :: l' => x :: remove string_dec x (first_occurrences l')
  end.

(* ------------------------------------------------------------------ *)
(** ** The join operator                                              *)

(** Modelled from the spec: [JoinPipelineType] of [IJoin] (declared in
    Interpreters/IJoin.h, not part of this development).  [YShaped] is the
    spec's Symmetric shape; every other shape is a build/probe shape. *)
Inductive JoinPipelineType := YShaped | BuildProbe.

Definition JoinPipelineType_eqb (a b : JoinPipelineType) : bool :=
  match a, b with
  | YShaped, YShaped | BuildProbe, BuildProbe => true
  | _, _ => false
  end.

Inductive JoinTableSide := Left | Right.

Definition JoinTableSide_toString (s : JoinTableSide) : string :=
  match s with Left => "Left" | Right => "Right" end.

(** Modelled from the spec: the capabilities of [IJoin] this file uses.
    [transformHeader] is [JoiningTransform::transformHeader(h, join)], the
    operator's projection of an input header; [getTotals] is the totals
    block the operator holds (a [Block] converts to [true] when it has
    columns). *)
Record IJoin := mkJoin {
  isFilled : bool;
  pipelineType : JoinPipelineType;
  transformHeader : Block -> Block;
  getTotals : Block
}.

Definition Block_to_bool (b : Block) : bool :=
  match b with [] => false | _ :: _ => true end.

(** Sort settings are passed through unchanged; kept as named values. *)
Definition SortSettings := list (string * nat).

(** Modelled from the spec: the sort-merge facet of the operator
    ([FullSortingMergeJoin]). *)
Record FullSortingMergeJoin := mkSortingJoin {
  sorting_base : IJoin;
  getKeyNames : JoinTableSide -> Names;
  getPrefixSortDesctiption : JoinTableSide -> SortDescription;
  getSortSettings : SortSettings
}.

(* ------------------------------------------------------------------ *)
(** ** Step traits (ITransformingStep::Traits)                         *)

Record DataStreamTraits := mkDataStreamTraits {
  preserves_distinct_columns : bool;
  returns_single_stream : bool;
  preserves_number_of_streams : bool;
  preserves_sorting : bool
}.

Record TransformTraits := mkTransformTraits {
  preserves_number_of_rows : bool
}.

Record Traits := mkTraits {
  data_stream_traits : DataStreamTraits;
  transform_traits : TransformTraits
}.

Definition getStorageJoinTraits : Traits :=
  mkTraits
    {| preserves_distinct_columns := false;
       returns_single_stream := false;
       preserves_number_of_streams := true;
       preserves_sorting := false |}
    {| preserves_number_of_rows := false |}.

Definition getSortTraits : Traits :=
  mkTraits
    {| preserves_distinct_columns := true;
       returns_single_stream := true;
       preserves_number_of_streams := false;
       preserves_sorting := false |}
    {| preserves_number_of_rows := true |}.

(** Modelled from the spec: [ITransformingStep::createOutputStream]; the
    output descriptor carries the given header. *)
Definition createOutputStream (input : DataStream) (output_header : Block)
    (traits : DataStreamTraits) : DataStream :=
  mkDataStream output_header.

(* ------------------------------------------------------------------ *)
(** ** The pipeline builder                                           *)

(** Modelled from the spec: [SortingStep], only through the operations
    this file calls (constructor, [convertToFinishSorting],
    [setStepDescription]). *)
Inductive SortingStepType := Full | FinishSorting.

Record SortingStep := mkSortingStep {
  ss_input_stream : DataStream;
  ss_result_description : SortDescription;
  ss_limit : nat;
  ss_sort_settings : SortSettings;
  ss_optimize_sorting_by_input_stream_properties : bool;
  ss_type : SortingStepType;
  ss_prefix_description : SortDescription;
  ss_step_description : string
}.

Definition SortingStep_new (input_stream : DataStream) (description : SortDescription)
    (limit : nat) (settings : SortSettings) (optimize : bool) : SortingStep :=
  mkSortingStep input_stream description limit settings optimize Full [] "".

Definition convertToFinishSorting (prefix_description : SortDescription)
    (s : SortingStep) : SortingStep :=
  {| ss_input_stream := ss_input_stream s;
     ss_result_description := ss_result_description s;
     ss_limit := ss_limit s;
     ss_sort_settings := ss_sort_settings s;
     ss_optimize_sorting_by_input_stream_properties :=
       ss_optimize_sorting_by_input_stream_properties s;
     ss_type := FinishSorting;
     ss_prefix_description := prefix_description;
     ss_step_description := ss_step_description s |}.

Definition SortingStep_setStepDescription (d : string) (s : SortingStep) : SortingStep :=
  {| ss_input_stream := ss_input_stream s;
     ss_result_description := ss_result_description s;
     ss_limit := ss_limit s;
     ss_sort_settings := ss_sort_settings s;
     ss_optimize_sorting_by_input_stream_properties :=
       ss_optimize_sorting_by_input_stream_properties s;
     ss_type := ss_type s;
     ss_prefix_description := ss_prefix_description s;
     ss_step_description := d |}.

(** Which kind of branch a simple transform is attached to. *)
Inductive StreamType := Main | Totals.

Definition StreamType_eqb (a b : StreamType) : bool :=
  match a, b with
  | Main, Main | Totals, Totals => true
  | _, _ => false
  end.

(** Processors this file creates.  A [JoiningTransform] holds its finish
    counter as a shared pointer: [None] is [nullptr], [Some l] points to
    cell [l] of the counter store. *)
Inductive Processor :=
| JoiningTransform (input_header output_header : Block) (join : IJoin)
    (max_block_size : nat) (on_totals default_totals : bool)
    (finish_counter : option nat)
| DefaultTotalsSource (h : Block)
| ResizeProcessor (n : nat).

Definition processor_output_header (default : Block) (p : Processor) : Block :=
  match p with
  | JoiningTransform _ out _ _ _ _ _ => out
  | _ => default
  end.

(** Modelled from the spec: [QueryPipelineBuilder].  A pipeline has
    [pl_num_streams] main branches sharing [pl_header], and an optional
    totals branch with its own header. *)
Record Pipeline := mkPipeline {
  pl_header : Block;
  pl_num_streams : nat;
  pl_totals : option Block;
  pl_processors : list Processor
}.

Definition getNumStreams (p : Pipeline) : nat := pl_num_streams p.

Definition hasTotals (p : Pipeline) : bool :=
  match pl_totals p with Some _ => true | None => false end.

(** [addDefaultTotals]: a totals branch of default values. *)
Definition addDefaultTotals (p : Pipeline) : Pipeline :=
  {| pl_header := pl_header p;
     pl_num_streams := pl_num_streams p;
     pl_totals := Some (pl_header p);
     pl_processors := pl_processors p ++ [DefaultTotalsSource (pl_header p)] |}.

(** [addSimpleTransform]: the factory is called once per branch, main
    branches first, then the totals branch. *)
Definition addSimpleTransform (factory : Block -> StreamType -> Processor)
    (p : Pipeline) : Pipeline :=
  let mains := map (fun _ => factory (pl_header p) Main) (seq 0 (pl_num_streams p)) in
  let totals := match pl_totals p with
                | Some th => [factory th Totals]
                | None => []
                end in
  {| pl_header := processor_output_header (pl_header p) (factory (pl_header p) Main);
     pl_num_streams := pl_num_streams p;
     pl_totals := match pl_totals p with
                  | Some th => Some (processor_output_header th (factory th Totals))
                  | None => None
                  end;
     pl_processors := pl_processors p ++ mains ++ totals |}.

(** [resize(n)]: the pipeline continues with exactly [n] main branches. *)
Definition resize (n : nat) (p : Pipeline) : Pipeline :=
  {| pl_header := pl_header p;
     pl_num_streams := n;
     pl_totals := pl_totals p;
     pl_processors := pl_processors p ++ [ResizeProcessor n] |}.

(* ------------------------------------------------------------------ *)
(** ** JoinStep                                                       *)

Record JoinStep := mkJoinStep {
  js_input_streams : list DataStream;
  js_output_stream : DataStream;
  join : IJoin;
  max_block_size : nat;
  max_streams : nat;
  keep_left_read_in_order : bool
}.

Definition logical_error (msg : string) : Exception := mkException LOGICAL_ERROR msg.

(** [JoinStep::JoinStep]. *)
Definition JoinStep_new (left_stream right_stream : DataStream) (join_ : IJoin)
    (max_block_size_ max_streams_ : nat) (keep_left_read_in_order_ : bool) : JoinStep :=
  {| js_input_streams := [left_stream; right_stream];
     js_output_stream := mkDataStream (transformHeader join_ (header left_stream));
     join := join_;
     max_block_size := max_block_size_;
     max_streams := max_streams_;
     keep_left_read_in_order := keep_left_read_in_order_ |}.

(** [JoinStep::updateInputStream]. *)
Definition updateInputStream (s : JoinStep) (new_input_stream : DataStream) (idx : nat)
    : Result JoinStep :=
  if Nat.eqb idx 0 then
    let! right := vector_at (js_input_streams s) 1 in
    Ok {| js_input_streams := [new_input_stream; right];
          js_output_stream := mkDataStream (transformHeader (join s) (header new_input_stream));
          join := join s;
          max_block_size := max_block_size s;
          max_streams := max_streams s;
          keep_left_read_in_order := keep_left_read_in_order s |}
  else
    let! left := vector_at (js_input_streams s) 0 in
    Ok {| js_input_streams := [left; new_input_stream];
          js_output_stream := js_output_stream s;
          join := join s;
          max_block_size := max_block_size s;
          max_streams := max_streams s;
          keep_left_read_in_order := keep_left_read_in_order s |}.

(** [JoinStep::allowPushDownToRight]. *)
Definition allowPushDownToRight (s : JoinStep) : bool :=
  JoinPipelineType_eqb (pipelineType (join s)) YShaped.

Section Collaborators.

(** The two pipeline-merge primitives of [QueryPipelineBuilder] and the
    pipeline transformation of [SortingStep] are left abstract. *)
Variable joinPipelinesYShaped :
  Pipeline -> Pipeline -> IJoin -> Block -> nat -> Pipeline.
Variable joinPipelinesRightLeft :
  Pipeline -> Pipeline -> IJoin -> Block -> nat -> nat -> bool -> Pipeline.
Variable SortingStep_transformPipeline : SortingStep -> Pipeline -> Pipeline.

(** [JoinStep::updatePipeline]: [pipelines.size() != 2] throws;
    otherwise [pipelines] is [[p0; p1]]. *)
Definition updatePipeline (s : JoinStep) (pipelines : list Pipeline) : Result Pipeline :=
  match pipelines with
  | [p0; p1] =>
      if JoinPipelineType_eqb (pipelineType (join s)) YShaped then
        let joined_pipeline :=
          joinPipelinesYShaped p0 p1 (join s) (header (js_output_stream s)) (max_block_size s) in
        Ok (resize (max_streams s) joined_pipeline)
      else
        Ok (joinPipelinesRightLeft p0 p1 (join s) (header (js_output_stream s))
              (max_block_size s) (max_streams s) (keep_left_read_in_order s))
  | _ => Throw (logical_error "JoinStep expect two input steps")
  end.

(* ------------------------------------------------------------------ *)
(** ** FilledJoinStep                                                 *)

(** An [ITransformingStep] keeps [input_streams = {input_stream}]; the
    single input is stored directly. *)
Record FilledJoinStep := mkFilledJoinStep {
  fj_input_stream : DataStream;
  fj_output_stream : DataStream;
  fj_traits : Traits;
  fj_join : IJoin;
  fj_max_block_size : nat
}.

(** [FilledJoinStep::FilledJoinStep]. *)
Definition FilledJoinStep_new (input_stream : DataStream) (join_ : IJoin)
    (max_block_size_ : nat) : Result FilledJoinStep :=
  let traits := getStorageJoinTraits in
  let s := {| fj_input_stream := input_stream;
              fj_output_stream :=
                createOutputStream input_stream
                  (transformHeader join_ (header input_stream)) (data_stream_traits traits);
              fj_traits := traits;
              fj_join := join_;
              fj_max_block_size := max_block_size_ |} in
  if negb (isFilled join_)
  then Throw (logical_error "FilledJoinStep expects Join to be filled")
  else Ok s.

(** [FilledJoinStep::transformPipeline].  The counter store [counters]
    holds the [FinishCounter]s allocated so far; [make_shared] allocates
    the next cell. *)
Definition FilledJoinStep_transformPipeline (s : FilledJoinStep)
    (pipeline : Pipeline) (counters : list nat) : Pipeline * list nat :=
  let '(pipeline, default_totals) :=
    if negb (hasTotals pipeline) && Block_to_bool (getTotals (fj_join s))
    then (addDefaultTotals pipeline, true)
    else (pipeline, false) in
  let finish_counter := length counters in
  let counters := counters ++ [getNumStreams pipeline] in
  let factory := fun (h : Block) (stream_type : StreamType) =>
    let on_totals := StreamType_eqb stream_type Totals in
    let counter := if on_totals then None else Some finish_counter in
    JoiningTransform h (header (fj_output_stream s)) (fj_join s) (fj_max_block_size s)
      on_totals default_totals counter in
  (addSimpleTransform factory pipeline, counters).

(** [FilledJoinStep::updateOutputStream]. *)
Definition FilledJoinStep_updateOutputStream (s : FilledJoinStep) : FilledJoinStep :=
  {| fj_input_stream := fj_input_stream s;
     fj_output_stream :=
       createOutputStream (fj_input_stream s)
         (transformHeader (fj_join s) (header (fj_input_stream s)))
         (data_stream_traits (fj_traits s));
     fj_traits := fj_traits s;
     fj_join := fj_join s;
     fj_max_block_size := fj_max_block_size s |}.

(** Modelled from the spec: [ITransformingStep::updateInputStream]
    replaces the input and recomputes the output through
    [updateOutputStream]. *)
Definition FilledJoinStep_updateInputStream (s : FilledJoinStep) (input : DataStream)
    : FilledJoinStep :=
  FilledJoinStep_updateOutputStream
    {| fj_input_stream := input;
       fj_output_stream := fj_output_stream s;
       fj_traits := fj_traits s;
       fj_join := fj_join s;
       fj_max_block_size := fj_max_block_size s |}.

(* ------------------------------------------------------------------ *)
(** ** SortForJoinStep                                                *)

Record SortForJoinStep := mkSortForJoinStep {
  sf_input_stream : DataStream;
  sf_output_stream : DataStream;
  sf_traits : Traits;
  sorting_join : FullSortingMergeJoin;
  join_side : JoinTableSide;
  sorting_step : option SortingStep;
  sf_step_description : string
}.

(** [SortForJoinStep::SortForJoinStep]. *)
Definition SortForJoinStep_new (input_stream : DataStream)
    (join_ptr : FullSortingMergeJoin) (side : JoinTableSide) : SortForJoinStep :=
  {| sf_input_stream := input_stream;
     sf_output_stream :=
       createOutputStream input_stream (header input_stream)
         (data_stream_traits getSortTraits);
     sf_traits := getSortTraits;
     sorting_join := join_ptr;
     join_side := side;
     sorting_step := None;
     sf_step_description := "" |}.

(** [SortForJoinStep::transformPipeline]; the debug logging is omitted. *)
Definition SortForJoinStep_transformPipeline (s : SortForJoinStep) (pipeline : Pipeline)
    : Result (SortForJoinStep * Pipeline) :=
  match sorting_step s with
  | Some _ => Throw (logical_error "SortForJoinStep::transformPipeline called twice")
  | None =>
      let sort_description :=
        getSortDescription (getKeyNames (sorting_join s) (join_side s)) in
      let step := SortingStep_new (sf_input_stream s) sort_description 0
                    (getSortSettings (sorting_join s)) false in
      let prefix_sort_description :=
        getPrefixSortDesctiption (sorting_join s) (join_side s) in
      let step := if negb (SortDescription_empty prefix_sort_description)
                  then convertToFinishSorting prefix_sort_description step
                  else step in
      let step := SortingStep_setStepDescription "Sorting for JOIN" step in
      let s' := {| sf_input_stream := sf_input_stream s;
                   sf_output_stream := sf_output_stream s;
                   sf_traits := sf_traits s;
                   sorting_join := sorting_join s;
                   join_side := join_side s;
                   sorting_step := Some step;
                   sf_step_description :=
                     "Sorting for " ++ JoinTableSide_toString (join_side s) ++ " side of JOIN" |} in
      Ok (s', SortingStep_transformPipeline step pipeline)
  end.

(** [SortForJoinStep::updateOutputStream]. *)
Definition SortForJoinStep_updateOutputStream (s : SortForJoinStep) : SortForJoinStep :=
  {| sf_input_stream := sf_input_stream s;
     sf_output_stream :=
       createOutputStream (sf_input_stream s) (header (sf_input_stream s))
         (data_stream_traits (sf_traits s));
     sf_traits := sf_traits s;
     sorting_join := sorting_join s;
     join_side := join_side s;
     sorting_step := sorting_step s;
     sf_step_description := sf_step_description s |}.

(** Modelled from the spec: [ITransformingStep::updateInputStream]. *)
Definition SortForJoinStep_updateInputStream (s : SortForJoinStep) (input : DataStream)
    : SortForJoinStep :=
  SortForJoinStep_updateOutputStream
    {| sf_input_stream := input;
       sf_output_stream := sf_output_stream s;
       sf_traits := sf_traits s;
       sorting_join := sorting_join s;
       join_side := join_side s;
       sorting_step := sorting_step s;
       sf_step_description := sf_step_description s |}.

(* ------------------------------------------------------------------ *)
(** ** Lifetimes of the two transforming steps                        *)

(** The [FilledJoinStep] values a program can hold: built by the
    constructor, then changed only by the operations of the class
    ([transformPipeline] leaves the step itself unchanged). *)
Inductive FilledJoinStep_reachable : FilledJoinStep -> Prop :=
| fj_constructed input join_ mbs s :
    FilledJoinStep_new input join_ mbs = Ok s -> FilledJoinStep_reachable s
| fj_updated_output s :
    FilledJoinStep_reachable s ->
    FilledJoinStep_reachable (FilledJoinStep_updateOutputStream s)
| fj_updated_input s input :
    FilledJoinStep_reachable s ->
    FilledJoinStep_reachable (FilledJoinStep_updateInputStream s input).

(** The [SortForJoinStep] values a program can hold. *)
Inductive SortForJoinStep_reachable : SortForJoinStep -> Prop :=
| sf_constructed input join_ptr side :
    SortForJoinStep_reachable (SortForJoinStep_new input join_ptr side)
| sf_transformed s pipeline s' pipeline' :
    SortForJoinStep_reachable s ->
    SortForJoinStep_transformPipeline s pipeline = Ok (s', pipeline') ->
    SortForJoinStep_reachable s'
| sf_updated_output s :
    SortForJoinStep_reachable s ->
    SortForJoinStep_reachable (SortForJoinStep_updateOutputStream s)
| sf_updated_input s input :
    SortForJoinStep_reachable s ->
    SortForJoinStep_reachable (SortForJoinStep_updateInputStream s input).

End Collaborators.

(* ------------------------------------------------------------------ *)
(** ** Callers: a planner replacing inputs one after the other        *)

(** A sequence of [JoinStep::updateInputStream] calls, each given as the
    new descriptor and the index; the first exception stops the sequence. *)
Fixpoint updateInputStreams (s : JoinStep) (updates : list (DataStream * nat))
    : Result JoinStep :=
  match updates with
  | [] => Ok s
  | (d, idx) :: rest =>
      let! s' := updateInputStream s d idx in
      updateInputStreams s' rest
  end.

(** The shape every constructed [JoinStep] keeps: two inputs, and the
    output schema is the operator's projection of the left one. *)
Definition JoinStep_consistent (s : JoinStep) : Prop :=
  exists a b, js_input_streams s = [a; b] /\
              js_output_stream s = mkDataStream (transformHeader (join s) (header a)).

(* ------------------------------------------------------------------ *)
(** ** Concrete inputs used by the witnesses                          *)

Definition ex_column (n : string) : ColumnWithTypeAndName := mkColumn n "UInt64".

(** A hash-join-like operator that appends the right column [r]. *)
Definition ex_join (shape : JoinPipelineType) : IJoin :=
  {| isFilled := true;
     pipelineType := shape;
     transformHeader := fun h => h ++ [ex_column "r"];
     getTotals := [] |}.

Definition ex_left : DataStream := mkDataStream [ex_column "k"; ex_column "a"].
Definition ex_right : DataStream := mkDataStream [ex_column "k"; ex_column "r"].
Definition ex_new : DataStream := mkDataStream [ex_column "k"].

Definition ex_step (shape : JoinPipelineType) : JoinStep :=
  JoinStep_new ex_left ex_right (ex_join shape) 4096 4 false.

Definition ex_pipeline (n : nat) : Pipeline :=
  mkPipeline [ex_column "k"; ex_column "a"] n None [].

(** Collaborators for the witnesses: a Y-shaped merge that yields one
    branch, a build/probe merge that keeps the left branches, and a sort
    that leaves the pipeline as it is. *)
Definition ex_joinPipelinesYShaped (l r : Pipeline) (j : IJoin) (h : Block) (mbs : nat)
    : Pipeline :=
  mkPipeline h 1 None (pl_processors l ++ pl_processors r).

Definition ex_joinPipelinesRightLeft (l r : Pipeline) (j : IJoin) (h : Block)
    (mbs ms : nat) (keep : bool) : Pipeline :=
  mkPipeline h (pl_num_streams l) (pl_totals l) (pl_processors l ++ pl_processors r).

Definition ex_sortingTransform (ss : SortingStep) (p : Pipeline) : Pipeline := p.

Definition ex_prefix : SortDescription := [SortColumnDescription_of "a"].

Definition ex_sorting_join (prefix : SortDescription) : FullSortingMergeJoin :=
  {| sorting_base := ex_join YShaped;
     getKeyNames := fun _ => ["a"; "a"; "b"];
     getPrefixSortDesctiption := fun _ => prefix;
     getSortSettings := [] |}.

(* ================================================================== *)
(** * Properties                                                       *)

(** ** Sort-key deduplication *)

Definition not_used (used : NameSet) (y : string) : bool :=
  negb (bool_decide (y ∈ used)).

Lemma remove_first_occurrences x m :
  remove string_dec x (first_occurrences m) = first_occurrences (remove string_dec x m).
Proof.
  induction m as [|y m IH]; simpl; [done|].
  destruct (string_dec x y) as [->|Hne]; simpl.
  - rewrite remove_remove_eq. exact IH.
  - destruct (string_dec y y) as [_|?]; [|done].
    rewrite remove_remove_comm, IH. done.
Qed.

Lemma not_used_decide used y :
  not_used used y = if decide (y ∈ used) then false else true.
Proof. unfold not_used. destruct (decide (y ∈ used)) as [H|H]; [rewrite bool_decide_true|rewrite bool_decide_false]; done. Qed.

Lemma filter_not_used_insert x used m :
  List.filter (not_used ({[x]} ∪ used)) m =
  remove string_dec x (List.filter (not_used used) m).
Proof.
  induction m as [|y m IH]; simpl; [done|].
  rewrite !not_used_decide.
  destruct (decide (y ∈ {[x]} ∪ used)) as [H1|H1], (decide (y ∈ used)) as [H2|H2]; simpl.
  - exact IH.
  - destruct (string_dec x y) as [->|Hne]; [exact IH|set_solver].
  - set_solver.
  - destruct (string_dec x y) as [->|_]; [set_solver|]. by rewrite IH.
Qed.

Lemma getSortDescription_fold l sd used :
  fst (fold_left getSortDescription_step l (sd, used)) =
  sd ++ map SortColumnDescription_of
          (first_occurrences (List.filter (not_used used) l)).
Proof.
  revert sd used. induction l as [|x l IH]; intros sd used; simpl.
  - rewrite app_nil_r. done.
  - rewrite not_used_decide. destruct (decide (x ∈ used)) as [Hin|Hnin].
    + apply IH.
    + simpl. rewrite IH.
      rewrite filter_not_used_insert, <- remove_first_occurrences.
      rewrite <- app_assoc. done.
Qed.

Lemma filter_not_used_empty (l : list string) : List.filter (not_used ∅) l = l.
Proof.
  induction l as [|x l IH]; simpl; [done|].
  rewrite not_used_decide, decide_False by set_solver. by rewrite IH.
Qed.

Lemma remove_NoDup x (l : list string) : NoDup l -> NoDup (remove string_dec x l).
Proof.
  induction l as [|y l IH]; simpl; intros Hnd; [constructor|].
  inversion Hnd as [|? ? Hy Hl]; subst.
  destruct (string_dec x y); [auto|].
  constructor; [|auto]. intros Hin. apply Hy.
  apply list_elem_of_In in Hin. apply list_elem_of_In.
  exact (proj1 (in_remove string_dec l y x Hin)).
Qed.

Lemma first_occurrences_NoDup l : NoDup (first_occurrences l).
Proof.
  induction l as [|x l IH]; simpl; constructor.
  - rewrite list_elem_of_In. apply remove_In.
  - by apply remove_NoDup.
Qed.

Lemma remove_sublist x (l : list string) : remove string_dec x l `sublist_of` l.
Proof.
  induction l as [|y l IH]; simpl; [done|].
  destruct (string_dec x y).
  - by apply sublist_cons.
  - by apply sublist_skip.
Qed.

Lemma first_occurrences_sublist l : first_occurrences l `sublist_of` l.
Proof.
  induction l as [|x l IH]; simpl; [done|].
  apply sublist_skip. etrans; [apply remove_sublist|exact IH].
Qed.

Lemma getSortDescription_names (key_names : Names) :
  map column_name (getSortDescription key_names) = first_occurrences key_names.
Proof.
  unfold getSortDescription. rewrite getSortDescription_fold, filter_not_used_empty.
  simpl. rewrite map_map. simpl. apply map_id.
Qed.

(** C5: the realized sort keys are the required key names with later
    duplicates dropped and first occurrences kept in order; they form a
    duplicate-free subsequence of the input; [a; a; b] gives [a; b]. *)
Theorem getSortDescription_dedup_first :
  (forall key_names : Names,
     map column_name (getSortDescription key_names) = first_occurrences key_names /\
     NoDup (map column_name (getSortDescription key_names)) /\
     map column_name (getSortDescription key_names) `sublist_of` key_names) /\
  map column_name (getSortDescription ["a"; "a"; "b"]) = ["a"; "b"].
Proof.
  split; [|reflexivity].
  intros key_names. rewrite getSortDescription_names.
  split; [done|]. split; [apply first_occurrences_NoDup|apply first_occurrences_sublist].
Qed.

(** ** JoinStep *)

Lemma JoinStep_new_inputs l r j mbs ms keep :
  js_input_streams (JoinStep_new l r j mbs ms keep) = [l; r].
Proof. reflexivity. Qed.

(** C2: with inputs [[l; r]], index 0 replaces the left input and sets the
    output schema to the operator's projection of the new left header;
    index 1 replaces the right input and changes nothing else, the output
    schema included. *)
Theorem updateInputStream_left_right (s : JoinStep) (l r d : DataStream) :
  js_input_streams s = [l; r] ->
  updateInputStream s d 0 =
    Ok {| js_input_streams := [d; r];
          js_output_stream := mkDataStream (transformHeader (join s) (header d));
          join := join s;
          max_block_size := max_block_size s;
          max_streams := max_streams s;
          keep_left_read_in_order := keep_left_read_in_order s |} /\
  updateInputStream s d 1 =
    Ok {| js_input_streams := [l; d];
          js_output_stream := js_output_stream s;
          join := join s;
          max_block_size := max_block_size s;
          max_streams := max_streams s;
          keep_left_read_in_order := keep_left_read_in_order s |}.
Proof.
  intros Hin. unfold updateInputStream, vector_at. rewrite Hin. split; reflexivity.
Qed.

Lemma updateInputStream_left_right_witness :
  js_input_streams (ex_step YShaped) = [ex_left; ex_right] /\
  updateInputStream (ex_step YShaped) ex_new 0 =
    Ok (JoinStep_new ex_new ex_right (ex_join YShaped) 4096 4 false) /\
  updateInputStream (ex_step YShaped) ex_new 1 =
    Ok {| js_input_streams := [ex_left; ex_new];
          js_output_stream := js_output_stream (ex_step YShaped);
          join := ex_join YShaped;
          max_block_size := 4096;
          max_streams := 4;
          keep_left_read_in_order := false |}.
Proof.
  split; [reflexivity|].
  apply (updateInputStream_left_right (ex_step YShaped) ex_left ex_right ex_new).
  reflexivity.
Defined.

(** C1, counterexample: on a freshly built step, index 2 raises no error;
    it replaces the right input. *)
Lemma updateInputStream_index2_counterexample :
  updateInputStream (ex_step YShaped) ex_new 2 =
    Ok (JoinStep_new ex_left ex_new (ex_join YShaped) 4096 4 false) /\
  ~ (exists e, updateInputStream (ex_step YShaped) ex_new 2 = Throw e /\
               code e = LOGICAL_ERROR).
Proof.
  split; [reflexivity|]. intros (e & He & _). discriminate He.
Qed.

(** C1, amended: every index other than 0 is handled like index 1; the
    right input is replaced, the left input, the output schema and the
    settings are kept, and no error is raised. *)
Theorem updateInputStream_nonzero_index (s : JoinStep) (l r d : DataStream) (idx : nat) :
  js_input_streams s = [l; r] -> idx <> 0 ->
  updateInputStream s d idx =
    Ok {| js_input_streams := [l; d];
          js_output_stream := js_output_stream s;
          join := join s;
          max_block_size := max_block_size s;
          max_streams := max_streams s;
          keep_left_read_in_order := keep_left_read_in_order s |}.
Proof.
  intros Hin Hidx. unfold updateInputStream, vector_at. rewrite Hin.
  destruct (Nat.eqb_spec idx 0); [contradiction|]. reflexivity.
Qed.

Lemma updateInputStream_nonzero_index_witness :
  js_input_streams (ex_step BuildProbe) = [ex_left; ex_right] /\ 7 <> 0 /\
  updateInputStream (ex_step BuildProbe) ex_new 7 =
    Ok {| js_input_streams := [ex_left; ex_new];
          js_output_stream := js_output_stream (ex_step BuildProbe);
          join := join (ex_step BuildProbe);
          max_block_size := max_block_size (ex_step BuildProbe);
          max_streams := max_streams (ex_step BuildProbe);
          keep_left_read_in_order := keep_left_read_in_order (ex_step BuildProbe) |}.
Proof.
  split; [reflexivity|]. split; [lia|].
  apply (updateInputStream_nonzero_index (ex_step BuildProbe) ex_left ex_right ex_new 7);
    [reflexivity|lia].
Defined.

(** C7: pushdown into the right input is allowed exactly for the
    Y-shaped (symmetric) operator, never for a build/probe one. *)
Theorem allowPushDownToRight_shape (s : JoinStep) :
  allowPushDownToRight s =
    match pipelineType (join s) with
    | YShaped => true
    | BuildProbe => false
    end.
Proof. unfold allowPushDownToRight. by destruct (pipelineType (join s)). Qed.

(** C8: [updatePipeline] with any number of sub-pipelines other than two
    throws the logical error. *)
Theorem updatePipeline_wrong_arity
    joinPipelinesYShaped joinPipelinesRightLeft (s : JoinStep) (pipelines : list Pipeline) :
  length pipelines <> 2 ->
  updatePipeline joinPipelinesYShaped joinPipelinesRightLeft s pipelines =
    Throw (logical_error "JoinStep expect two input steps") /\
  code (logical_error "JoinStep expect two input steps") = LOGICAL_ERROR.
Proof.
  intros Hlen. split; [|reflexivity].
  destruct pipelines as [|p0 [|p1 [|p2 rest]]]; simpl in *; try reflexivity. lia.
Qed.

Lemma updatePipeline_wrong_arity_witness :
  (length [ex_pipeline 1] <> 2 /\
   updatePipeline ex_joinPipelinesYShaped ex_joinPipelinesRightLeft (ex_step YShaped)
     [ex_pipeline 1] = Throw (logical_error "JoinStep expect two input steps") /\
   code (logical_error "JoinStep expect two input steps") = LOGICAL_ERROR) /\
  (length [ex_pipeline 1; ex_pipeline 2; ex_pipeline 3] <> 2 /\
   updatePipeline ex_joinPipelinesYShaped ex_joinPipelinesRightLeft (ex_step BuildProbe)
     [ex_pipeline 1; ex_pipeline 2; ex_pipeline 3] =
     Throw (logical_error "JoinStep expect two input steps") /\
   code (logical_error "JoinStep expect two input steps") = LOGICAL_ERROR).
Proof.
  split; (split; [simpl; lia|]);
    apply updatePipeline_wrong_arity; simpl; lia.
Defined.

(** C6: for a Y-shaped operator and any two sub-pipelines, the built
    pipeline has exactly [max_streams] branches, whatever the merge yields. *)
Theorem updatePipeline_yshaped_resized
    joinPipelinesYShaped joinPipelinesRightLeft (s : JoinStep) (p0 p1 : Pipeline) :
  pipelineType (join s) = YShaped ->
  exists p, updatePipeline joinPipelinesYShaped joinPipelinesRightLeft s [p0; p1] = Ok p /\
            getNumStreams p = max_streams s.
Proof.
  intros Hy. unfold updatePipeline. rewrite Hy. simpl. eexists. split; reflexivity.
Qed.

Lemma updatePipeline_yshaped_resized_witness :
  pipelineType (join (ex_step YShaped)) = YShaped /\
  exists p, updatePipeline ex_joinPipelinesYShaped ex_joinPipelinesRightLeft (ex_step YShaped)
              [ex_pipeline 1; ex_pipeline 7] = Ok p /\
            getNumStreams p = max_streams (ex_step YShaped).
Proof.
  split; [reflexivity|]. apply updatePipeline_yshaped_resized. reflexivity.
Defined.

(** ** FilledJoinStep *)

Lemma Forall_map_const {A B} (P : B -> Prop) (x : B) (l : list A) :
  P x -> Forall P (map (fun _ => x) l).
Proof.
  intros Hx. apply Forall_forall. intros y Hy.
  apply list_elem_of_In, in_map_iff in Hy. destruct Hy as (? & <- & _). exact Hx.
Qed.

Ltac c3_goal :=
  first
    [ rewrite <- app_assoc; reflexivity
    | reflexivity
    | unfold hasTotals; simpl; destruct (pl_totals _); reflexivity
    | by rewrite length_map, length_seq
    | apply Forall_map_const; by eexists
    | destruct (pl_totals _); repeat constructor; by eexists ].

(** C3: a default totals branch is added exactly when the pipeline has no
    totals and the operator holds totals, and then every transform gets
    [default_totals = true]; one transform is created per branch of the
    resulting pipeline; one counter cell is allocated, seeded with the
    number of main branches, shared by every main-branch transform and
    never given to the totals-branch transform. *)
Theorem FilledJoinStep_transformPipeline_spec
    (s : FilledJoinStep) (p : Pipeline) (counters : list nat) :
  let synthesized := negb (hasTotals p) && Block_to_bool (getTotals (fj_join s)) in
  let r := FilledJoinStep_transformPipeline s p counters in
  exists mains totals,
    pl_processors (fst r) =
      pl_processors p
      ++ (if synthesized then [DefaultTotalsSource (pl_header p)] else [])
      ++ mains ++ totals /\
    hasTotals (fst r) = hasTotals p || synthesized /\
    getNumStreams (fst r) = getNumStreams p /\
    length mains = getNumStreams p /\
    length totals = (if hasTotals (fst r) then 1 else 0) /\
    snd r = counters ++ [getNumStreams p] /\
    Forall (fun pr => exists h,
              pr = JoiningTransform h (header (fj_output_stream s)) (fj_join s)
                     (fj_max_block_size s) false synthesized (Some (length counters)))
      mains /\
    Forall (fun pr => exists h,
              pr = JoiningTransform h (header (fj_output_stream s)) (fj_join s)
                     (fj_max_block_size s) true synthesized None)
      totals.
Proof.
  intros synthesized r. subst r.
  unfold FilledJoinStep_transformPipeline. fold synthesized.
  destruct synthesized eqn:Hs; simpl.
  - apply andb_true_iff in Hs as [Hnt Htot].
    unfold hasTotals in Hnt. destruct (pl_totals p) eqn:Ht; [discriminate|].
    exists (map (fun _ => JoiningTransform (pl_header p) (header (fj_output_stream s))
                            (fj_join s) (fj_max_block_size s) false true
                            (Some (length counters)))
              (seq 0 (pl_num_streams p))).
    exists [JoiningTransform (pl_header p) (header (fj_output_stream s))
              (fj_join s) (fj_max_block_size s) true true None].
    repeat split; c3_goal.
  - exists (map (fun _ => JoiningTransform (pl_header p) (header (fj_output_stream s))
                            (fj_join s) (fj_max_block_size s) false false
                            (Some (length counters)))
              (seq 0 (pl_num_streams p))).
    exists (match pl_totals p with
            | Some th => [JoiningTransform th (header (fj_output_stream s))
                            (fj_join s) (fj_max_block_size s) true false None]
            | None => []
            end).
    repeat split; c3_goal.
Qed.

(** ** SortForJoinStep *)

(** C4: the first [transformPipeline] builds a sorting sub-step over the
    deduplicated keys of the step's side with limit 0, hands the pipeline
    to it, and turns it into a finish sort by the operator's prefix exactly
    when that prefix is non-empty; with an empty prefix the sub-step is the
    full sort as constructed. *)
Theorem SortForJoinStep_first_transform
    SortingStep_transformPipeline (s : SortForJoinStep) (p : Pipeline) :
  sorting_step s = None ->
  let keys := getSortDescription (getKeyNames (sorting_join s) (join_side s)) in
  let prefix := getPrefixSortDesctiption (sorting_join s) (join_side s) in
  exists s' ss,
    SortForJoinStep_transformPipeline SortingStep_transformPipeline s p =
      Ok (s', SortingStep_transformPipeline ss p) /\
    sorting_step s' = Some ss /\
    ss_input_stream ss = sf_input_stream s /\
    ss_result_description ss = keys /\
    ss_limit ss = 0 /\
    (ss_type ss = FinishSorting <-> prefix <> []) /\
    (prefix <> [] -> ss_prefix_description ss = prefix) /\
    (prefix = [] ->
       ss = SortingStep_setStepDescription "Sorting for JOIN"
              (SortingStep_new (sf_input_stream s) keys 0
                 (getSortSettings (sorting_join s)) false)).
Proof.
  intros Hnone keys prefix.
  unfold SortForJoinStep_transformPipeline. rewrite Hnone. fold keys prefix.
  eexists _, _. split; [reflexivity|]. split; [reflexivity|].
  destruct prefix as [|c cs] eqn:Hp; simpl.
  - repeat split; done.
  - repeat split; done.
Qed.

Lemma SortForJoinStep_first_transform_witness :
  sorting_step (SortForJoinStep_new ex_left (ex_sorting_join ex_prefix) Left) = None /\
  exists s' ss,
    SortForJoinStep_transformPipeline ex_sortingTransform
      (SortForJoinStep_new ex_left (ex_sorting_join ex_prefix) Left) (ex_pipeline 2) =
      Ok (s', ex_sortingTransform ss (ex_pipeline 2)) /\
    sorting_step s' = Some ss /\
    ss_input_stream ss = ex_left /\
    ss_result_description ss = getSortDescription ["a"; "a"; "b"] /\
    ss_limit ss = 0 /\
    (ss_type ss = FinishSorting <-> ex_prefix <> []) /\
    (ex_prefix <> [] -> ss_prefix_description ss = ex_prefix) /\
    (ex_prefix = [] ->
       ss = SortingStep_setStepDescription "Sorting for JOIN"
              (SortingStep_new ex_left (getSortDescription ["a"; "a"; "b"]) 0 [] false)).
Proof.
  split; [reflexivity|].
  exact (SortForJoinStep_first_transform ex_sortingTransform
           (SortForJoinStep_new ex_left (ex_sorting_join ex_prefix) Left) (ex_pipeline 2)
           eq_refl).
Defined.

(** C9: once the sorting sub-step exists, [transformPipeline] throws the
    logical error; in particular a second call after a successful first
    one always throws. *)
Theorem SortForJoinStep_transform_twice SortingStep_transformPipeline :
  (forall (s : SortForJoinStep) (p : Pipeline) (ss : SortingStep),
     sorting_step s = Some ss ->
     SortForJoinStep_transformPipeline SortingStep_transformPipeline s p =
       Throw (logical_error "SortForJoinStep::transformPipeline called twice")) /\
  (forall (s s' : SortForJoinStep) (p p' q : Pipeline),
     SortForJoinStep_transformPipeline SortingStep_transformPipeline s p = Ok (s', p') ->
     SortForJoinStep_transformPipeline SortingStep_transformPipeline s' q =
       Throw (logical_error "SortForJoinStep::transformPipeline called twice")).
Proof.
  split.
  - intros s p ss Hs. unfold SortForJoinStep_transformPipeline. by rewrite Hs.
  - intros s s' p p' q H. unfold SortForJoinStep_transformPipeline in H.
    destruct (sorting_step s); [discriminate|]. injection H as <- _. reflexivity.
Qed.

Lemma SortForJoinStep_transform_twice_witness :
  let s0 := SortForJoinStep_new ex_left (ex_sorting_join []) Right in
  (exists s1 p1,
     SortForJoinStep_transformPipeline ex_sortingTransform s0 (ex_pipeline 1) = Ok (s1, p1) /\
     SortForJoinStep_transformPipeline ex_sortingTransform s1 (ex_pipeline 1) =
       Throw (logical_error "SortForJoinStep::transformPipeline called twice")).
Proof.
  intros s0.
  remember (SortForJoinStep_transformPipeline ex_sortingTransform s0 (ex_pipeline 1))
    as r eqn:Hr.
  destruct r as [[s1 p1]|e]; [|simpl in Hr; discriminate].
  exists s1, p1. split; [reflexivity|].
  apply (proj2 (SortForJoinStep_transform_twice ex_sortingTransform)
           s0 s1 (ex_pipeline 1) p1 (ex_pipeline 1)).
  symmetry. exact Hr.
Defined.

(** ** Step traits *)

(** C10: every [FilledJoinStep] carries the storage-join traits and every
    [SortForJoinStep] the sort traits, from construction on and through
    every operation of the class. *)
Theorem step_traits_fixed SortingStep_transformPipeline :
  (forall s : FilledJoinStep,
     FilledJoinStep_reachable s ->
     fj_traits s =
       mkTraits
         {| preserves_distinct_columns := false;
            returns_single_stream := false;
            preserves_number_of_streams := true;
            preserves_sorting := false |}
         {| preserves_number_of_rows := false |}) /\
  (forall s : SortForJoinStep,
     SortForJoinStep_reachable SortingStep_transformPipeline s ->
     sf_traits s =
       mkTraits
         {| preserves_distinct_columns := true;
            returns_single_stream := true;
            preserves_number_of_streams := false;
            preserves_sorting := false |}
         {| preserves_number_of_rows := true |}).
Proof.
  split.
  - intros s Hr. induction Hr as [input j mbs s Hnew| |]; try assumption.
    unfold FilledJoinStep_new in Hnew. destruct (isFilled j); [|discriminate].
    injection Hnew as <-. reflexivity.
  - intros s Hr. induction Hr as [| s p s' p' _ IH Ht | |]; try assumption.
    + reflexivity.
    + unfold SortForJoinStep_transformPipeline in Ht.
      destruct (sorting_step s); [discriminate|]. injection Ht as <- _. exact IH.
Qed.

Lemma step_traits_fixed_witness :
  (exists s, FilledJoinStep_new ex_left (ex_join BuildProbe) 4096 = Ok s /\
     fj_traits (FilledJoinStep_updateInputStream s ex_new) =
       mkTraits
         {| preserves_distinct_columns := false;
            returns_single_stream := false;
            preserves_number_of_streams := true;
            preserves_sorting := false |}
         {| preserves_number_of_rows := false |}) /\
  sf_traits (SortForJoinStep_updateOutputStream
               (SortForJoinStep_new ex_left (ex_sorting_join []) Left)) =
    mkTraits
      {| preserves_distinct_columns := true;
         returns_single_stream := true;
         preserves_number_of_streams := false;
         preserves_sorting := false |}
      {| preserves_number_of_rows := true |}.
Proof.
  split.
  - eexists. split; [reflexivity|].
    apply (proj1 (step_traits_fixed ex_sortingTransform)).
    apply fj_updated_input. apply (fj_constructed ex_left (ex_join BuildProbe) 4096). reflexivity.
  - apply (proj2 (step_traits_fixed ex_sortingTransform)).
    apply sf_updated_output. apply sf_constructed.
Defined.

(* ================================================================== *)
(** * Further properties of the code *)

(** ** JoinStep: construction and input replacement *)

(** X1: replacing an input of a freshly built step gives the step built
    with that input instead: index 0 for the left input, index 1 for the
    right one. *)
Theorem updateInputStream_after_new l r d j mbs ms keep :
  updateInputStream (JoinStep_new l r j mbs ms keep) d 0 = Ok (JoinStep_new d r j mbs ms keep) /\
  updateInputStream (JoinStep_new l r j mbs ms keep) d 1 = Ok (JoinStep_new l d j mbs ms keep).
Proof. split; reflexivity. Qed.

Lemma updateInputStream_consistent s d idx :
  JoinStep_consistent s ->
  exists s', updateInputStream s d idx = Ok s' /\ JoinStep_consistent s' /\
             join s' = join s /\ max_block_size s' = max_block_size s /\
             max_streams s' = max_streams s /\
             keep_left_read_in_order s' = keep_left_read_in_order s.
Proof.
  intros (a & b & Hin & Hout). unfold updateInputStream, vector_at. rewrite Hin.
  destruct (Nat.eqb idx 0); simpl; eexists; split; try reflexivity.
  - split; [by exists d, b|]. done.
  - split; [exists a, d; split; [reflexivity|exact Hout]|]. done.
Qed.

(** X2: any sequence of input replacements on a constructed step
    succeeds (no index is rejected), keeps two inputs, keeps the operator
    and the settings, and leaves the output schema equal to the operator's
    projection of whatever the left input is at the end. *)
Theorem updateInputStreams_keep_output_consistent l r j mbs ms keep
    (updates : list (DataStream * nat)) :
  exists s', updateInputStreams (JoinStep_new l r j mbs ms keep) updates = Ok s' /\
    join s' = j /\ max_block_size s' = mbs /\ max_streams s' = ms /\
    keep_left_read_in_order s' = keep /\
    exists a b, js_input_streams s' = [a; b] /\
                js_output_stream s' = mkDataStream (transformHeader j (header a)).
Proof.
  assert (Hgen : forall s, JoinStep_consistent s ->
    exists s', updateInputStreams s updates = Ok s' /\ JoinStep_consistent s' /\
      join s' = join s /\ max_block_size s' = max_block_size s /\
      max_streams s' = max_streams s /\
      keep_left_read_in_order s' = keep_left_read_in_order s).
  { induction updates as [|[d idx] rest IH]; intros s Hs; simpl.
    - exists s. repeat split; done.
    - destruct (updateInputStream_consistent s d idx Hs)
        as (s1 & -> & Hs1 & Hj & Hm & Hms & Hk). simpl.
      destruct (IH s1 Hs1) as (s2 & -> & Hs2 & Hj2 & Hm2 & Hms2 & Hk2).
      exists s2. repeat split; congruence. }
  destruct (Hgen (JoinStep_new l r j mbs ms keep)) as (s' & Hr & (a & b & Hin & Hout) & Hj & Hm & Hms & Hk).
  { exists l, r. split; reflexivity. }
  exists s'. simpl in *. rewrite Hj in Hout. repeat split; try done. exists a, b. done.
Qed.

(** X3: replacing the left input and replacing the right input commute. *)
Theorem updateInputStream_left_right_commute (s : JoinStep) (a b dl dr : DataStream) :
  js_input_streams s = [a; b] ->
  updateInputStreams s [(dl, 0); (dr, 1)] = updateInputStreams s [(dr, 1); (dl, 0)].
Proof.
  intros Hin. simpl. unfold updateInputStream, vector_at. rewrite Hin. reflexivity.
Qed.

Lemma updateInputStream_left_right_commute_witness :
  js_input_streams (ex_step YShaped) = [ex_left; ex_right] /\
  updateInputStreams (ex_step YShaped) [(ex_new, 0); (ex_left, 1)] =
  updateInputStreams (ex_step YShaped) [(ex_left, 1); (ex_new, 0)].
Proof.
  split; [reflexivity|].
  apply (updateInputStream_left_right_commute (ex_step YShaped) ex_left ex_right). reflexivity.
Defined.

(** X4: replacing an input never changes whether pushdown into the right
    input is allowed. *)
Theorem updateInputStream_keeps_pushdown (s s' : JoinStep) d idx :
  updateInputStream s d idx = Ok s' -> allowPushDownToRight s' = allowPushDownToRight s.
Proof.
  unfold updateInputStream, vector_at.
  destruct (Nat.eqb idx 0), (js_input_streams s !! _); simpl; intros H;
    try discriminate; injection H as <-; reflexivity.
Qed.

Lemma updateInputStream_keeps_pushdown_witness :
  exists s', updateInputStream (ex_step BuildProbe) ex_new 0 = Ok s' /\
             allowPushDownToRight s' = allowPushDownToRight (ex_step BuildProbe).
Proof.
  eexists. split; [reflexivity|].
  apply (updateInputStream_keeps_pushdown (ex_step BuildProbe) _ ex_new 0). reflexivity.
Defined.


(** ** FilledJoinStep: construction and header consistency *)



(** X7: throughout its life a [FilledJoinStep]'s output header is the
    operator's projection of its current input header. *)
Theorem FilledJoinStep_output_consistent (s : FilledJoinStep) :
  FilledJoinStep_reachable s ->
  header (fj_output_stream s) = transformHeader (fj_join s) (header (fj_input_stream s)).
Proof.
  intros Hr. induction Hr as [input j mbs s Hnew| s _ IH | s input _ IH]; try reflexivity.
  unfold FilledJoinStep_new in Hnew. destruct (isFilled j); [|discriminate].
  injection Hnew as <-. reflexivity.
Qed.

Lemma FilledJoinStep_output_consistent_witness :
  exists s, FilledJoinStep_new ex_left (ex_join YShaped) 4096 = Ok s /\
    header (fj_output_stream (FilledJoinStep_updateInputStream s ex_new)) =
    transformHeader (ex_join YShaped) (header ex_new).
Proof.
  eexists. split; [reflexivity|].
  exact (FilledJoinStep_output_consistent _
           (fj_updated_input _ ex_new
              (fj_constructed ex_left (ex_join YShaped) 4096 _ eq_refl))).
Defined.

(** X8: after [transformPipeline] every branch of the pipeline, the totals
    branch included, carries the step's output header. *)
Theorem FilledJoinStep_transformPipeline_headers
    (s : FilledJoinStep) (p : Pipeline) (counters : list nat) :
  let p' := fst (FilledJoinStep_transformPipeline s p counters) in
  pl_header p' = header (fj_output_stream s) /\
  match pl_totals p' with
  | Some th => th = header (fj_output_stream s)
  | None => True
  end.
Proof.
  intros p'. subst p'. unfold FilledJoinStep_transformPipeline.
  destruct (negb (hasTotals p) && Block_to_bool (getTotals (fj_join s))); simpl;
    split; try reflexivity; destruct (pl_totals p); reflexivity.
Qed.

(** ** SortForJoinStep: success condition and what a call changes *)




(** X11: sorting for a join never changes the schema: throughout its life
    a [SortForJoinStep]'s output header is its input header. *)
Theorem SortForJoinStep_header_preserved SortingStep_transformPipeline (s : SortForJoinStep) :
  SortForJoinStep_reachable SortingStep_transformPipeline s ->
  header (sf_output_stream s) = header (sf_input_stream s).
Proof.
  intros Hr. induction Hr as [| s p s' p' _ IH Ht | |]; try reflexivity.
  unfold SortForJoinStep_transformPipeline in Ht.
  destruct (sorting_step s); [discriminate|]. injection Ht as <- _. exact IH.
Qed.

Lemma SortForJoinStep_header_preserved_witness :
  header (sf_output_stream (SortForJoinStep_updateInputStream
            (SortForJoinStep_new ex_left (ex_sorting_join []) Right) ex_new)) = header ex_new.
Proof.
  apply (SortForJoinStep_header_preserved ex_sortingTransform
           (SortForJoinStep_updateInputStream
              (SortForJoinStep_new ex_left (ex_sorting_join []) Right) ex_new)).
  apply sf_updated_input. apply sf_constructed.
Defined.

(** ** getSortDescription *)

Lemma getSortDescription_eq (key_names : Names) :
  getSortDescription key_names = map SortColumnDescription_of (first_occurrences key_names).
Proof.
  unfold getSortDescription. rewrite getSortDescription_fold, filter_not_used_empty. done.
Qed.

Lemma first_occurrences_In x l : In x (first_occurrences l) <-> In x l.
Proof.
  induction l as [|y l IH]; simpl; [done|].
  split.
  - intros [->|Hin]; [by left|]. right. apply IH. exact (proj1 (in_remove _ _ _ _ Hin)).
  - intros [->|Hin]; [by left|].
    destruct (string_dec y x) as [->|Hne]; [by left|].
    right. apply in_in_remove; [congruence|]. by apply IH.
Qed.

Lemma first_occurrences_NoDup_id (l : list string) :
  NoDup l -> first_occurrences l = l.
Proof.
  induction l as [|x l IH]; simpl; intros Hnd; [done|].
  apply NoDup_cons in Hnd as [Hx Hl]. rewrite IH by done.
  rewrite notin_remove; [done|]. intros Hin. apply Hx. by apply list_elem_of_In.
Qed.

Lemma getSortDescription_fold_used l sd used :
  snd (fold_left getSortDescription_step l (sd, used)) = list_to_set l ∪ used.
Proof.
  revert sd used. induction l as [|x l IH]; intros sd used; simpl.
  - set_solver.
  - destruct (decide (x ∈ used)); rewrite IH; set_solver.
Qed.

Lemma filter_not_used_all (used : NameSet) (m : list string) :
  (forall x, In x m -> x ∈ used) -> List.filter (not_used used) m = [].
Proof.
  induction m as [|y m IH]; simpl; intros H; [done|].
  rewrite not_used_decide, decide_True by (apply H; by left). apply IH. intros x Hx. apply H. by right.
Qed.

(** X12: a name is a sort key exactly when it is among the required key
    names: deduplication loses no key. *)
Theorem getSortDescription_keys_complete (key_names : Names) (x : string) :
  In x (map column_name (getSortDescription key_names)) <-> In x key_names.
Proof. rewrite getSortDescription_names. apply first_occurrences_In. Qed.

(** X13: every sort key is ascending with the default nulls direction. *)
Theorem getSortDescription_ascending (key_names : Names) :
  Forall (fun d => direction d = 1%Z /\ nulls_direction d = 1%Z) (getSortDescription key_names).
Proof.
  rewrite getSortDescription_eq. apply Forall_forall. intros d Hd.
  apply list_elem_of_In, in_map_iff in Hd. destruct Hd as (k & <- & _). split; reflexivity.
Qed.

(** X14: a key list without repeated names is used as it is, in order. *)
Theorem getSortDescription_NoDup_identity (key_names : Names) :
  NoDup key_names -> map column_name (getSortDescription key_names) = key_names.
Proof. intros Hnd. rewrite getSortDescription_names. by apply first_occurrences_NoDup_id. Qed.

Lemma getSortDescription_NoDup_identity_witness :
  NoDup ["k"; "a"; "b"] /\
  map column_name (getSortDescription ["k"; "a"; "b"]) = ["k"; "a"; "b"].
Proof.
  assert (H : NoDup ["k"; "a"; "b"]) by (repeat constructor; set_solver).
  split; [exact H|]. exact (getSortDescription_NoDup_identity _ H).
Defined.

(** X15: appending names that are already listed adds no sort key. *)
Theorem getSortDescription_app_listed (l m : Names) :
  (forall x, In x m -> In x l) ->
  getSortDescription (l ++ m) = getSortDescription l.
Proof.
  intros Hm. unfold getSortDescription, Names, Name in *. rewrite fold_left_app.
  match goal with
  | |- context [fold_left getSortDescription_step l ?a] =>
      destruct (fold_left getSortDescription_step l a) as [sd used] eqn:Hl
  end.
  assert (Hu : used = list_to_set l ∪ ∅).
  { change used with (snd (sd, used)). rewrite <- Hl. apply getSortDescription_fold_used. }
  rewrite getSortDescription_fold, filter_not_used_all; simpl.
  - by rewrite app_nil_r.
  - intros x Hx. rewrite Hu. apply elem_of_union_l, elem_of_list_to_set.
    apply list_elem_of_In. by apply Hm.
Qed.

Lemma getSortDescription_app_listed_witness :
  (forall x, In x ["a"; "b"; "a"] -> In x ["a"; "b"]) /\
  getSortDescription (["a"; "b"] ++ ["a"; "b"; "a"]) = getSortDescription ["a"; "b"].
Proof.
  assert (H : forall x, In x ["a"; "b"; "a"] -> In x ["a"; "b"]).
  { simpl. intros x Hx. intuition. }
  split; [exact H|]. exact (getSortDescription_app_listed _ _ H).
Defined.

(** X16: deduplicating an already realized key list changes nothing. *)
Theorem getSortDescription_idempotent (key_names : Names) :
  getSortDescription (map column_name (getSortDescription key_names)) =
  getSortDescription key_names.
Proof.
  rewrite getSortDescription_names, !getSortDescription_eq.
  rewrite (first_occurrences_NoDup_id (first_occurrences key_names)); [done|].
  apply first_occurrences_NoDup.
Qed.
